(** * my_flow.py: a Prefect flow, its task and subflow, and its deployment

    Shallow embedding of [terraform-assessment/docker/my_flow.py] (the live
    code, lines 52-81; lines 1-50 are comments).  The script's functions are
    computations in a state-and-exception monad whose state records what the
    process emits: text written to stdout and the calls made to the Prefect
    client.  The Prefect client itself is external: it is an interface whose
    calls may raise. *)

From stdpp Require Import base strings list gmap.

(** ** Values *)

(** The Python values the flow handles at run time. *)
Inductive py_value :=
| VNone
| VStr (s : string)
| VFuture (id : nat).

(** Literals of the deployment call: strings and dict displays. *)
#[warnings="-register-all"]
Inductive literal :=
| LStr (s : string)
| LDict (items : list (string * literal)).

Inductive exn :=
| PlatformError (msg : string)   (* raised inside the Prefect client *)
| AttributeError (msg : string). (* raised by the script's own attribute access *)

(** ** Effects *)

Inductive event :=
| Stdout (text : string)
| Submit (task_name : string)
| Wait (id : nat)
| RunFlow (flow_name : string)
| Deploy (flow_name flow_def : string) (kwargs : list (string * literal)).

Record state := mkState {
  trace : list event;                      (* oldest first *)
  futures : gmap nat (py_value + exn);     (* settled task runs *)
  next_future : nat
}.

Definition initial_state : state :=
  {| trace := []; futures := ∅; next_future := 0 |}.

Definition emit (e : event) (s : state) : state :=
  {| trace := trace s ++ [e]; futures := futures s; next_future := next_future s |}.

Inductive outcome (A : Type) :=
| Ok (a : A) (s : state)
| Raise (e : exn) (s : state).
Arguments Ok {A} a s.
Arguments Raise {A} e s.

Definition final {A} (o : outcome A) : state :=
  match o with Ok _ s => s | Raise _ s => s end.

Definition M (A : Type) : Type := state → outcome A.

#[global] Instance M_ret : MRet M := λ A a s, Ok a s.
#[global] Instance M_bind : MBind M := λ A B f m s,
  match m s with
  | Ok a s' => f a s'
  | Raise e s' => Raise e s'
  end.

Definition raise {A} (e : exn) : M A := λ s, Raise e s.

(** ** Console *)

Definition newline : string := String (Ascii.ascii_of_nat 10) "".

(** [str(v)] of a value; how the client's futures print is the client's
    business ([future_repr]). *)
Definition py_str (future_repr : nat → string) (v : py_value) : string :=
  match v with
  | VNone => "None"
  | VStr s => s
  | VFuture id => future_repr id
  end.

Definition stdout_event (e : event) : string :=
  match e with Stdout text => text | _ => "" end.

(** The text a run of events writes to stdout. *)
Definition stdout_of (t : list event) : string :=
  String.concat "" (stdout_event <$> t).

(** Splitting console text into its lines; [cur] is the line being read. *)
Fixpoint split_lines (cur s : string) : list string :=
  match s with
  | "" => if decide (cur = "") then [] else [cur]
  | String c r =>
      if decide (c = Ascii.ascii_of_nat 10) then cur :: split_lines "" r
      else split_lines (cur +:+ String c "") r
  end.

Definition console_lines (t : list event) : list string :=
  split_lines "" (stdout_of t).

Definition is_client_call (e : event) : bool :=
  match e with Stdout _ => false | _ => true end.

(** The calls into the Prefect client among a run of events, in order. *)
Definition client_calls (t : list event) : list event :=
  filter (λ e, is_client_call e = true) t.

(** ** Callables *)

Record task := mkTask {
  task_def : string;            (* the Python function's name *)
  task_name : string;           (* the name the platform knows it by *)
  task_params : list string;
  task_fn : M py_value
}.

Record flow := mkFlow {
  flow_def : string;
  flow_name : string;
  flow_params : list string;
  flow_fn : M py_value
}.

(** ** Module namespace *)

(** What a module-level name is bound to. *)
Inductive binding :=
| Imported (module attr : string)
| TaskDef (t : task)
| FlowDef (f : flow).

(** Binding a name: a name already bound is rebound in place. *)
Fixpoint define (name : string) (b : binding) (g : list (string * binding))
  : list (string * binding) :=
  match g with
  | [] => [(name, b)]
  | (n, x) :: r =>
      if decide (n = name) then (n, b) :: r else (n, x) :: define name b r
  end.

Definition is_declaration (b : binding) : bool :=
  match b with Imported _ _ => false | _ => true end.

(** The names a namespace binds to functions declared in the module itself. *)
Definition declared (g : list (string * binding)) : list string :=
  (filter (λ nb, is_declaration nb.2 = true) g).*1.

(** ** The Prefect client *)

(** The client is outside this repository.  What the script relies on is
    modelled below ([submit], [result], [call_flow], [deploy]); whether a call
    into the client raises, and how a future prints, are left open. *)
Class PrefectClient := {
  client_fault : event → state → option string;
  future_repr : nat → string
}.

(** A client none of whose calls raises. *)
Definition client_reliable (c : PrefectClient) : Prop :=
  ∀ e s, @client_fault c e s = None.

Definition local_client : PrefectClient :=
  {| client_fault := λ _ _, None; future_repr := λ _, "PrefectFuture" |}.

Section Script.
Context {client : PrefectClient}.

(** [print] of several arguments: their [str], joined by one space, then a
    newline, written to stdout. *)
Definition print (args : list py_value) : M py_value := λ s,
  Ok VNone (emit (Stdout (String.concat " " (py_str future_repr <$> args) +:+ newline)) s).

(** Every call into the client is recorded, then the client may raise. *)
Definition client_call (c : event) : M () := λ s,
  match client_fault c s with
  | Some msg => Raise (PlatformError msg) (emit c s)
  | None => Ok () (emit c s)
  end.

(** The task runner executes the task's function and settles future [id]
    with what it returned or raised. *)
Definition run_task (t : task) : M py_value := λ s,
  let id := next_future s in
  let o := task_fn t {| trace := trace s; futures := futures s; next_future := S id |} in
  let settled := match o with Ok v _ => inl v | Raise e _ => inr e end in
  Ok (VFuture id)
     {| trace := trace (final o); futures := <[id := settled]> (futures (final o));
        next_future := next_future (final o) |}.

(** [t.submit()]: the task run is handed to the task runner and a future
    comes back. *)
Definition submit (t : task) : M py_value :=
  client_call (Submit (task_name t));;
  run_task t.

Definition settled_result (id : nat) : M py_value := λ s,
  match futures s !! id with
  | Some (inl v) => Ok v s
  | Some (inr e) => Raise e s
  | None => Raise (PlatformError "unknown future") s
  end.

(** [fut.result()]: waits for the run and returns its value, or re-raises
    its exception.  Only futures have the attribute. *)
Definition result (fut : py_value) : M py_value :=
  match fut with
  | VFuture id =>
      client_call (Wait id);;
      settled_result id
  | _ => raise (AttributeError "result")
  end.

(** [f()] inside a running flow: a subflow run, executed in line. *)
Definition call_flow (f : flow) : M py_value :=
  client_call (RunFlow (flow_name f));;
  flow_fn f.

(** [f.deploy] with keyword arguments; the script discards what it returns.
    The call is recorded with the flow it is made on (its registered name and
    its function's name) and with the keyword arguments, which are all the
    script passes. *)
Definition deploy (f : flow) (kwargs : list (string * literal)) : M () :=
  client_call (Deploy (flow_name f) (flow_def f) kwargs).

(** ** The script *)

(** [@flow(name="no-flow") def no(): return "no"] *)
Definition no : flow :=
  {| flow_def := "no"; flow_name := "no-flow"; flow_params := [];
     flow_fn := mret (VStr "no") |}.

(** [@task def yes(): return "yes"]; an unnamed task goes by its function's
    name. *)
Definition yes : task :=
  {| task_def := "yes"; task_name := "yes"; task_params := [];
     task_fn := mret (VStr "yes") |}.

(** [@flow(name="yasir-flow") def hello_flow(): ...] *)
Definition hello_flow : flow :=
  {| flow_def := "hello_flow"; flow_name := "yasir-flow"; flow_params := [];
     flow_fn :=
       print [VStr "Hello from Prefect Cloud Managed Pool!"];;
       result_yes ← submit yes;
       r ← result result_yes;
       print [VStr "Task result:"; r];;
       result_no ← call_flow no;
       print [VStr "Subflow result:"; result_no];;
       mret VNone |}.

Definition deploy_kwargs : list (string * literal) :=
  [ ("name", LStr "demo-deployment");
    ("work_pool_name", LStr "ecs-work-pool");
    ("job_variables",
      LDict [("image",
              LStr "882142483262.dkr.ecr.us-east-1.amazonaws.com/prefect-flow:latest")]) ].

(** Running the file top to bottom with [__name__] set to [name__]; the
    value is the module's namespace. *)
Definition run_module (name__ : string) : M (list (string * binding)) :=
  let g := define "flow" (Imported "prefect" "flow") [] in
  let g := define "task" (Imported "prefect" "task") g in
  let g := define "no" (FlowDef no) g in
  let g := define "yes" (TaskDef yes) g in
  let g := define "hello_flow" (FlowDef hello_flow) g in
  if decide (name__ = "__main__") then
    deploy hello_flow deploy_kwargs;;
    mret g
  else mret g.

End Script.

(** ** What a complete run of [hello_flow] emits *)

(** The events of a run of [hello_flow] whose task run got future [id]. *)
Definition hello_flow_events (id : nat) : list event :=
  [ Stdout ("Hello from Prefect Cloud Managed Pool!" +:+ newline);
    Submit "yes";
    Wait id;
    Stdout ("Task result: yes" +:+ newline);
    RunFlow "no-flow";
    Stdout ("Subflow result: no" +:+ newline) ].

(** The events from state [s] up to a later state [s']. *)
Definition emitted (s s' : state) : list event :=
  drop (length (trace s)) (trace s').

(** The leaves of a literal, each with the keys that lead to it. *)
Fixpoint leaves (path : list string) (l : literal) : list (list string * string) :=
  match l with
  | LStr v => [(path, v)]
  | LDict items =>
      (fix go (kvs : list (string * literal)) :=
         match kvs with
         | [] => []
         | (k, v) :: r => leaves (path ++ [k]) v ++ go r
         end) items
  end.

(** The value a keyword-argument list gives to [name]. *)
Fixpoint kwarg (name : string) (kwargs : list (string * literal)) : option literal :=
  match kwargs with
  | [] => None
  | (k, v) :: r => if decide (k = name) then Some v else kwarg name r
  end.

(** The process after one invocation of [hello_flow] from the initial state
    with [local_client], and after a second one. *)
Definition after_first_run : state :=
  final (flow_fn (@hello_flow local_client) initial_state).

Definition after_second_run : state :=
  final (flow_fn (@hello_flow local_client) after_first_run).

(** The first line [hello_flow] prints. *)
Definition greeting : event :=
  Stdout ("Hello from Prefect Cloud Managed Pool!" +:+ newline).

(** A client that refuses subflow runs and lets every other call through. *)
Definition no_subflow_client : PrefectClient :=
  {| client_fault := λ e _,
       match e with RunFlow _ => Some "subflow run refused" | _ => None end;
     future_repr := λ _, "PrefectFuture" |}.

(** * Properties *)

(** ** The monad and the client *)

Lemma emitted_app s s' d : trace s' = trace s ++ d → emitted s s' = d.
Proof. intros E. unfold emitted. rewrite E. apply drop_app_length. Qed.

Lemma filter_prefix {A} (P : A → Prop) `{∀ x, Decision (P x)} (l k : list A) :
  l `prefix_of` k → filter P l `prefix_of` filter P k.
Proof. intros [r ->]. rewrite filter_app. by exists (filter P r). Qed.

Section Runs.
Context {client : PrefectClient}.

(** A call into the client is always recorded; it raises exactly when the
    client does, with the client's own error. *)
Lemma client_call_run c s :
  match client_call c s with
  | Ok _ s' => client_fault c s = None ∧ s' = emit c s
  | Raise e s' => ∃ msg, client_fault c s = Some msg ∧ e = PlatformError msg ∧ s' = emit c s
  end.
Proof. unfold client_call. destruct (client_fault c s); eauto. Qed.

(** A submitted task's future is settled with the task function's outcome,
    whatever the table held before. *)
Lemma run_task_settles t s v s1 :
  task_fn t {| trace := trace s; futures := futures s; next_future := S (next_future s) |}
    = Ok v s1 →
  ∃ s', run_task t s = Ok (VFuture (next_future s)) s'
        ∧ futures s' !! next_future s = Some (inl v)
        ∧ trace s' = trace s1.
Proof.
  intros E. unfold run_task. rewrite E. eexists. split; [reflexivity|].
  split; [apply lookup_insert_eq | reflexivity].
Qed.

(** Closes the case of a run stopped by the client fault [F], after the events
    [pre]. *)
Tactic Notation "stopped_at" constr(F) open_constr(pre) :=
  eexists _, _, _, pre; split_and!;
  [ exact F | reflexivity | reflexivity
  | cbn [final emit trace]; by rewrite <- ?app_assoc
  | by eexists ].

(** Every run of [hello_flow]: it returns [None] after emitting all of
    [hello_flow_events], or it stops at a call into the client that raised,
    with the client's error, having emitted the events up to that call. *)
Lemma hello_flow_run s :
  match flow_fn hello_flow s with
  | Ok v s' =>
      v = VNone ∧ trace s' = trace s ++ hello_flow_events (next_future s)
  | Raise e s' =>
      ∃ c s0 msg pre,
        client_fault c s0 = Some msg ∧ e = PlatformError msg
        ∧ is_client_call c = true
        ∧ trace s' = trace s ++ pre ++ [c]
        ∧ (pre ++ [c]) `prefix_of` hello_flow_events (next_future s)
  end.
Proof.
  cbv [hello_flow flow_fn mbind M_bind mret M_ret print submit client_call
       run_task yes task_fn task_name no flow_name call_flow].
  cbn [fmap list_fmap py_str String.concat].
  destruct (client_fault (Submit "yes") _) eqn:F1.
  { stopped_at F1 [_]. }
  cbn [final emit trace futures next_future result].
  cbv [mbind M_bind client_call settled_result].
  destruct (client_fault (Wait _) _) eqn:F2.
  { stopped_at F2 [_; _]. }
  cbn [final emit trace futures next_future].
  rewrite lookup_insert_eq.
  destruct (client_fault (RunFlow _) _) eqn:F3.
  { stopped_at F3 [_; _; _; _]. }
  cbn [final emit trace futures next_future fmap list_fmap py_str String.concat].
  split; [done|]. by rewrite <- !app_assoc.
Qed.

(** With a client that does not raise, the run completes. *)
Lemma hello_flow_completes s :
  client_reliable client →
  ∃ s', flow_fn hello_flow s = Ok VNone s'
        ∧ trace s' = trace s ++ hello_flow_events (next_future s).
Proof.
  intros Hrel. pose proof (hello_flow_run s) as Hrun.
  destruct (flow_fn hello_flow s) as [v s'|e s'].
  - destruct Hrun as [-> Ht]. by exists s'.
  - destruct Hrun as (c & s0 & msg & pre & Hf & _). rewrite Hrel in Hf. done.
Qed.

(** The task run through the client: submitted, then its result fetched. *)
Lemma submit_result_yes s :
  match (fut ← submit yes; result fut) s with
  | Ok v s' =>
      v = VStr "yes" ∧ trace s' = trace s ++ [Submit "yes"; Wait (next_future s)]
  | Raise e s' => ∃ msg, e = PlatformError msg
  end.
Proof.
  cbv [mbind M_bind submit].
  pose proof (client_call_run (Submit (task_name yes)) s) as Hc.
  destruct (client_call _ s) as [[] s1|e s1];
    [|destruct Hc as (msg & _ & -> & _); eauto].
  destruct Hc as [_ ->].
  destruct (run_task_settles yes (emit (Submit (task_name yes)) s) (VStr "yes") _ eq_refl)
    as (s2 & -> & Hfut & Ht).
  cbv [result mbind M_bind].
  pose proof (client_call_run (Wait (next_future s)) s2) as Hw.
  cbn [emit next_future] in *.
  destruct (client_call _ s2) as [[] s3|e s3];
    [|destruct Hw as (msg & _ & -> & _); eauto].
  destruct Hw as [_ ->]. unfold settled_result. cbn [emit futures].
  rewrite Hfut. split; [done|]. cbn [emit trace]. rewrite Ht. cbn.
  by rewrite <- app_assoc.
Qed.

(** The subflow called from a running flow. *)
Lemma call_flow_no s :
  match call_flow no s with
  | Ok v s' => v = VStr "no" ∧ trace s' = trace s ++ [RunFlow "no-flow"]
  | Raise e s' => (∃ msg, e = PlatformError msg) ∧ trace s' = trace s ++ [RunFlow "no-flow"]
  end.
Proof.
  cbv [call_flow mbind M_bind].
  pose proof (client_call_run (RunFlow (flow_name no)) s) as Hc.
  destruct (client_call _ s) as [[] s1|e s1].
  - destruct Hc as [_ ->]. done.
  - destruct Hc as (msg & _ & -> & ->). eauto.
Qed.

(** Running the module: as the entry script it makes the one deployment
    call, otherwise it changes nothing and only binds its names. *)
Lemma run_module_run name s :
  if decide (name = "__main__") then
    trace (final (run_module name s))
      = trace s ++ [Deploy "yasir-flow" "hello_flow" deploy_kwargs]
  else
    ∃ g, run_module name s = Ok g s ∧ declared g = ["no"; "yes"; "hello_flow"].
Proof.
  unfold run_module. destruct (decide (name = "__main__")) as [->|Hne].
  - cbv [mbind M_bind deploy client_call].
    by destruct (client_fault _ s).
  - by eexists.
Qed.

End Runs.

Section Stops.
Context {client : PrefectClient}.

(** The state a run of [hello_flow] ends in: when it returns, one future was
    allocated and settled with "yes"; when it raises, it is the state of the
    client call that raised, with that call recorded. *)
Lemma hello_flow_cases s :
  let id := next_future s in
  match flow_fn hello_flow s with
  | Ok v s' =>
      v = VNone
      ∧ trace s' = trace s ++ hello_flow_events id
      ∧ futures s' = <[id := inl (VStr "yes")]> (futures s)
      ∧ next_future s' = S id
  | Raise e s' =>
      ∃ c s0 msg,
        client_fault c s0 = Some msg ∧ e = PlatformError msg
        ∧ trace s' = trace s0 ++ [c]
        ∧ ( (c = Submit "yes" ∧ trace s0 = trace s ++ [greeting])
          ∨ (c = Wait id ∧ trace s0 = trace s ++ [greeting; Submit "yes"])
          ∨ (c = RunFlow "no-flow"
             ∧ trace s0 = trace s ++ [greeting; Submit "yes"; Wait id;
                                      Stdout ("Task result: yes" +:+ newline)]) )
  end.
Proof.
  intros id. subst id.
  cbv [hello_flow flow_fn mbind M_bind mret M_ret print submit client_call
       run_task yes task_fn task_name no flow_name call_flow].
  cbn [fmap list_fmap py_str String.concat].
  destruct (client_fault (Submit "yes") _) eqn:F1.
  { eexists _, _, _. split_and!; [exact F1|done..|]. left. done. }
  cbn [final emit trace futures next_future result].
  cbv [mbind M_bind client_call settled_result].
  destruct (client_fault (Wait _) _) eqn:F2.
  { eexists _, _, _. split_and!; [exact F2|done..|]. right; left.
    split; [done|]. cbn [trace]. by rewrite <- app_assoc. }
  cbn [final emit trace futures next_future].
  rewrite lookup_insert_eq.
  destruct (client_fault (RunFlow _) _) eqn:F3.
  { eexists _, _, _. split_and!; [exact F3|done..|]. right; right.
    split; [done|]. cbn [emit trace]. by rewrite <- !app_assoc. }
  cbn [final emit trace futures next_future fmap list_fmap py_str String.concat].
  split_and!; [done| |done..]. by rewrite <- !app_assoc.
Qed.

End Stops.

(** * The script's contracts *)

(** C3. The task unit [yes] has no parameter; its function returns exactly
    the string "yes" from every state and leaves the state as it was (no
    output, no call, nothing else); submitted and awaited through the client
    it yields "yes", and only the client can make that fail. *)
Theorem yes_returns_yes (client : PrefectClient) (s : state) :
  task_params yes = []
  ∧ task_fn yes s = Ok (VStr "yes") s
  ∧ match (fut ← submit yes; result fut) s with
    | Ok v s' => v = VStr "yes" ∧ stdout_of (emitted s s') = ""
    | Raise e _ => ∃ msg, e = PlatformError msg
    end.
Proof.
  split_and!; [done..|].
  pose proof (submit_result_yes s) as H.
  destruct ((fut ← submit yes; result fut) s) as [v s'|e s']; [|done].
  destruct H as [-> Ht]. by rewrite (emitted_app _ _ _ Ht).
Qed.

(** C4. The subflow unit [no] has no parameter; its function returns exactly
    the string "no" from every state and leaves the state as it was, so it
    prints nothing; called from a flow it yields "no" with nothing written to
    the console. *)
Theorem no_returns_no (client : PrefectClient) (s : state) :
  flow_params no = []
  ∧ flow_fn no s = Ok (VStr "no") s
  ∧ match call_flow no s with
    | Ok v s' => v = VStr "no" ∧ stdout_of (emitted s s') = ""
    | Raise e s' => (∃ msg, e = PlatformError msg) ∧ stdout_of (emitted s s') = ""
    end.
Proof.
  split_and!; [done..|].
  pose proof (call_flow_no s) as H.
  destruct (call_flow no s) as [v s'|e s']; destruct H as [Hv Ht];
    by rewrite (emitted_app _ _ _ Ht).
Qed.

(** C1, as the code has it. Every invocation of [hello_flow] that the client
    lets run to its end writes exactly three lines to the console, in this
    order: "Hello from Prefect Cloud Managed Pool!", "Task result: yes",
    "Subflow result: no"; nothing else is written. *)
Theorem hello_flow_console_output (client : PrefectClient) (s : state) :
  client_reliable client →
  ∃ s', flow_fn hello_flow s = Ok VNone s'
        ∧ trace s' = trace s ++ emitted s s'
        ∧ console_lines (emitted s s')
          = [ "Hello from Prefect Cloud Managed Pool!";
              "Task result: yes";
              "Subflow result: no" ].
Proof.
  intros Hrel. destruct (hello_flow_completes s Hrel) as (s' & Hrun & Ht).
  exists s'. rewrite (emitted_app _ _ _ Ht). done.
Qed.

Lemma hello_flow_console_output_witness :
  ∃ s', flow_fn (@hello_flow local_client) initial_state = Ok VNone s'
        ∧ trace s' = trace initial_state ++ emitted initial_state s'
        ∧ console_lines (emitted initial_state s')
          = [ "Hello from Prefect Cloud Managed Pool!";
              "Task result: yes";
              "Subflow result: no" ].
Proof.
  apply (hello_flow_console_output local_client initial_state).
  intros e s. reflexivity.
Defined.

(** C1, as the specification words it, fails: run once from the initial
    state with a client that does not raise, the flow's console output is not
    the two lines "Task result: yes", "Subflow result: no". *)
Lemma hello_flow_two_lines_only_fails :
  console_lines
    (emitted initial_state (final (flow_fn (@hello_flow local_client) initial_state)))
  ≠ [ "Task result: yes"; "Subflow result: no" ].
Proof. vm_compute. discriminate. Qed.

(** C6. [hello_flow] has no parameter, and every invocation that the client
    lets run to its end returns [None] to its caller. *)
Theorem hello_flow_returns_none (client : PrefectClient) (s : state) :
  client_reliable client →
  flow_params hello_flow = []
  ∧ ∃ s', flow_fn hello_flow s = Ok VNone s'.
Proof.
  intros Hrel. split; [done|].
  destruct (hello_flow_completes s Hrel) as (s' & Hrun & _). eauto.
Qed.

Lemma hello_flow_returns_none_witness :
  flow_params (@hello_flow local_client) = []
  ∧ ∃ s', flow_fn (@hello_flow local_client) initial_state = Ok VNone s'.
Proof.
  apply (hello_flow_returns_none local_client initial_state).
  intros e s. reflexivity.
Defined.

(** C5. In every execution of [hello_flow] the calls into the client are, in
    this order, one submission of the task, the wait for that submission's
    result, and one call of the subflow.  A run that returns made exactly
    these three calls.  A run that raises was cut short by the client: it
    made an initial part of the three calls, at least the submission, the
    last call made is the one for which the client raised, and what is
    raised is the client's error; so the subflow is never called before the
    task's result was awaited.  With a client that does not raise the run
    returns, and the three calls are made. *)
Theorem hello_flow_call_order (client : PrefectClient) (s : state) :
  let o := flow_fn hello_flow s in
  let calls := client_calls (emitted s (final o)) in
  let expected := [Submit "yes"; Wait (next_future s); RunFlow "no-flow"] in
  trace (final o) = trace s ++ emitted s (final o)
  ∧ match o with
    | Ok _ _ => calls = expected
    | Raise e s' =>
        calls `prefix_of` expected
        ∧ ∃ c s0 msg,
            client_fault c s0 = Some msg
            ∧ e = PlatformError msg
            ∧ trace s' = trace s0 ++ [c]
            ∧ last calls = Some c
    end
  ∧ (client_reliable client → ∃ v s', o = Ok v s' ∧ calls = expected).
Proof.
  intros o calls expected. subst o calls expected.
  split_and!.
  - pose proof (hello_flow_run s) as Hrun.
    destruct (flow_fn hello_flow s) as [v s'|e s']; cbn [final].
    + destruct Hrun as [_ Ht]. by rewrite (emitted_app _ _ _ Ht).
    + destruct Hrun as (c & s0 & msg & pre & _ & _ & _ & Ht & _).
      by rewrite (emitted_app _ _ _ Ht).
  - pose proof (hello_flow_cases s) as H. cbn zeta in H.
    destruct (flow_fn hello_flow s) as [v s'|e s']; cbn [final].
    + destruct H as (_ & Ht & _). by rewrite (emitted_app _ _ _ Ht).
    + destruct H as (c & s0 & msg & Hf & -> & Ht & Hc).
      assert (∃ d, trace s' = trace s ++ d
                   ∧ client_calls d `prefix_of`
                       [Submit "yes"; Wait (next_future s); RunFlow "no-flow"]
                   ∧ last (client_calls d) = Some c) as (d & Hd & Hpre & Hlast).
      { destruct Hc as [[-> H0]|[[-> H0]|[-> H0]]];
          rewrite Ht, H0, <- app_assoc; eexists; (split; [reflexivity|]);
          (split; [by eexists | reflexivity]). }
      rewrite (emitted_app _ _ _ Hd). split; [done|]. by exists c, s0, msg.
  - intros Hrel. destruct (hello_flow_completes s Hrel) as (s' & -> & Ht).
    exists VNone, s'. split; [done|]. cbn [final].
    by rewrite (emitted_app _ _ _ Ht).
Qed.

Lemma hello_flow_call_order_witness :
  ∃ v s',
    flow_fn (@hello_flow local_client) initial_state = Ok v s'
    ∧ client_calls
        (emitted initial_state (final (flow_fn (@hello_flow local_client) initial_state)))
      = [Submit "yes"; Wait (next_future initial_state); RunFlow "no-flow"].
Proof.
  pose proof (hello_flow_call_order local_client initial_state) as H.
  cbv zeta in H. destruct H as (_ & _ & H).
  apply H. intros e s. reflexivity.
Defined.

(** C7. The script's own logic cannot fail: the functions of [yes] and [no]
    return from every state, and whenever [hello_flow] raises, what it raises
    is the error a call into the Prefect client raised, passed on as it is. *)
Theorem own_logic_cannot_fail (client : PrefectClient) (s : state) :
  task_fn yes s = Ok (VStr "yes") s
  ∧ flow_fn no s = Ok (VStr "no") s
  ∧ match flow_fn hello_flow s with
    | Ok v _ => v = VNone
    | Raise e _ =>
        ∃ c s0 msg,
          is_client_call c = true
          ∧ client_fault c s0 = Some msg
          ∧ e = PlatformError msg
    end.
Proof.
  split_and!; [done..|].
  pose proof (hello_flow_run s) as Hrun.
  destruct (flow_fn hello_flow s) as [v s'|e s'].
  - by destruct Hrun.
  - destruct Hrun as (c & s0 & msg & pre & Hf & -> & Hc & _).
    by exists c, s0, msg.
Qed.

(** C9. [hello_flow] is deterministic: any two invocations that return, from
    whatever states and with whatever clients, return the same value and
    write the same text to the console. *)
Theorem hello_flow_deterministic (c1 c2 : PrefectClient) (s1 s2 s1' s2' : state)
    (v1 v2 : py_value) :
  flow_fn (@hello_flow c1) s1 = Ok v1 s1' →
  flow_fn (@hello_flow c2) s2 = Ok v2 s2' →
  v1 = v2 ∧ stdout_of (emitted s1 s1') = stdout_of (emitted s2 s2').
Proof.
  intros E1 E2.
  pose proof (@hello_flow_run c1 s1) as H1. rewrite E1 in H1.
  pose proof (@hello_flow_run c2 s2) as H2. rewrite E2 in H2.
  destruct H1 as [-> Ht1], H2 as [-> Ht2].
  by rewrite (emitted_app _ _ _ Ht1), (emitted_app _ _ _ Ht2).
Qed.

(** Two invocations one after the other in the same process. *)
Lemma hello_flow_deterministic_witness :
  VNone = VNone
  ∧ stdout_of (emitted initial_state after_first_run)
    = stdout_of (emitted after_first_run after_second_run).
Proof.
  apply (hello_flow_deterministic local_client local_client
           initial_state after_first_run after_first_run after_second_run);
    vm_compute; reflexivity.
Defined.

(** ** The module and its deployment call *)

(** C2. Each time the file runs as the entry script, from whatever state and
    with whatever client, the one thing it emits is the deployment call, and
    the keyword arguments handed over are the literals of the source,
    unmodified: exactly three string fields, the deployment name, the
    work-pool name and the job image reference. *)
Theorem deploy_payload (client : PrefectClient) (s : state) :
  trace (final (run_module "__main__" s))
  = trace s ++
    [ Deploy "yasir-flow" "hello_flow"
        [ ("name", LStr "demo-deployment");
          ("work_pool_name", LStr "ecs-work-pool");
          ("job_variables",
            LDict [("image",
                    LStr "882142483262.dkr.ecr.us-east-1.amazonaws.com/prefect-flow:latest")]) ] ]
  ∧ leaves [] (LDict deploy_kwargs)
    = [ (["name"], "demo-deployment");
        (["work_pool_name"], "ecs-work-pool");
        (["job_variables"; "image"],
          "882142483262.dkr.ecr.us-east-1.amazonaws.com/prefect-flow:latest") ].
Proof.
  split; [|reflexivity].
  pose proof (run_module_run "__main__" s) as H.
  destruct (decide ("__main__" = "__main__")); [exact H | done].
Qed.

(** C8. The deployment call is guarded by the script-entry check: running
    the module emits a deployment call if and only if [__name__] is
    "__main__".  As the entry script that call is all it emits; imported under
    any other name it returns leaving the state as it was (no call, no
    output), its namespace holding the names imported from prefect and the
    three declarations [no], [yes] and [hello_flow]. *)
Theorem deploy_guard (client : PrefectClient) (name : string) (s : state) :
  let o := run_module name s in
  trace (final o) = trace s ++ emitted s (final o)
  ∧ (name = "__main__" ↔ ∃ fn ep kw, Deploy fn ep kw ∈ emitted s (final o))
  ∧ (if decide (name = "__main__") then
       emitted s (final o) = [Deploy "yasir-flow" "hello_flow" deploy_kwargs]
     else
       ∃ g, o = Ok g s
            ∧ g.*1 = ["flow"; "task"; "no"; "yes"; "hello_flow"]
            ∧ declared g = ["no"; "yes"; "hello_flow"]).
Proof.
  intros o. subst o.
  pose proof (run_module_run name s) as H.
  destruct (decide (name = "__main__")) as [Hmain|Hne].
  - rewrite (emitted_app _ _ _ H). split_and!; [done| |done].
    split; [|done]. intros _. eexists _, _, _. apply list_elem_of_singleton. done.
  - destruct H as (g & Hrun & Hdecl). rewrite Hrun. cbn [final].
    assert (emitted s s = []) as -> by (apply emitted_app; by rewrite app_nil_r).
    split_and!.
    + by rewrite app_nil_r.
    + split; [done|]. intros (fn & ep & kw & Hin). by apply not_elem_of_nil in Hin.
    + exists g. split_and!; [done| |done].
      unfold run_module in Hrun. destruct (decide (name = "__main__")); [done|].
      by injection Hrun as <-.
Qed.

(** C10. The names registered with the platform are not the Python function
    names: the function [no] is the flow "no-flow" and the function
    [hello_flow] is the flow "yasir-flow"; the deployment the entry script
    registers is named "demo-deployment" and is a deployment of [hello_flow],
    not of the subflow. *)
Theorem registered_names (client : PrefectClient) (s : state) :
  flow_def no = "no" ∧ flow_name no = "no-flow"
  ∧ flow_def hello_flow = "hello_flow" ∧ flow_name hello_flow = "yasir-flow"
  ∧ flow_name no ≠ flow_def no
  ∧ flow_name hello_flow ≠ flow_def hello_flow
  ∧ ∃ kw,
      emitted s (final (run_module "__main__" s))
      = [Deploy (flow_name hello_flow) (flow_def hello_flow) kw]
      ∧ kwarg "name" kw = Some (LStr "demo-deployment")
      ∧ flow_name hello_flow ≠ flow_name no
      ∧ flow_def hello_flow ≠ flow_def no.
Proof.
  split_and!; [done..|].
  exists deploy_kwargs. split_and!; [|done..].
  pose proof (run_module_run "__main__" s) as H.
  destruct (decide ("__main__" = "__main__")); [|done].
  by rewrite (emitted_app _ _ _ H).
Qed.

(** * Further properties of the script *)

(** ** Runs cut short by the client *)

(** X1. What is on the console after any run of [hello_flow], with any
    client: the three lines when it returns; when the client cut it short,
    the greeting alone or the greeting and "Task result: yes".  The greeting
    is always there, "Subflow result: no" only after a run that returned, and
    a future never gets printed. *)
Theorem hello_flow_console_any_run (client : PrefectClient) (s : state) :
  let o := flow_fn hello_flow s in
  let out := console_lines (emitted s (final o)) in
  match o with
  | Ok _ _ =>
      out = [ "Hello from Prefect Cloud Managed Pool!"; "Task result: yes";
              "Subflow result: no" ]
  | Raise _ _ =>
      out = [ "Hello from Prefect Cloud Managed Pool!" ]
      ∨ out = [ "Hello from Prefect Cloud Managed Pool!"; "Task result: yes" ]
  end.
Proof.
  intros o out. subst o out.
  pose proof (hello_flow_cases s) as H. cbn zeta in H.
  destruct (flow_fn hello_flow s) as [v s'|e s']; cbn [final].
  - destruct H as (_ & Ht & _). by rewrite (emitted_app _ _ _ Ht).
  - destruct H as (c & s0 & msg & _ & _ & Ht & [[-> H0]|[[-> H0]|[-> H0]]]);
      rewrite H0, <- app_assoc in Ht; rewrite (emitted_app _ _ _ Ht);
      [left|left|right]; reflexivity.
Qed.

(** X2. A run of [hello_flow] that raises stopped at the client call that
    raised: that call is the last event of the run, the error is the one the
    client gave for it in the state holding everything emitted before, and
    the run's events are the greeting and the submission, or these and the
    wait, or these, the "Task result: yes" line and the subflow call. *)
Theorem hello_flow_stops_at_fault (client : PrefectClient) (s s' : state) (e : exn) :
  flow_fn hello_flow s = Raise e s' →
  ∃ c s0 msg,
    client_fault c s0 = Some msg
    ∧ e = PlatformError msg
    ∧ trace s' = trace s0 ++ [c]
    ∧ trace s' = trace s ++ emitted s s'
    ∧ last (emitted s s') = Some c
    ∧ emitted s s'
      ∈ [ [greeting; Submit "yes"];
          [greeting; Submit "yes"; Wait (next_future s)];
          [greeting; Submit "yes"; Wait (next_future s);
           Stdout ("Task result: yes" +:+ newline); RunFlow "no-flow"] ].
Proof.
  intros E. pose proof (hello_flow_cases s) as H. cbn zeta in H. rewrite E in H.
  destruct H as (c & s0 & msg & Hf & -> & Ht & Hc).
  exists c, s0, msg. split_and!; [done..| | |];
    destruct Hc as [[-> H0]|[[-> H0]|[-> H0]]];
    rewrite H0, <- app_assoc in Ht; rewrite (emitted_app _ _ _ Ht);
    try done; set_solver.
Qed.

Lemma hello_flow_stops_at_fault_witness :
  ∃ c s0 msg,
    @client_fault no_subflow_client c s0 = Some msg
    ∧ PlatformError "subflow run refused" = PlatformError msg
    ∧ trace (final (flow_fn (@hello_flow no_subflow_client) initial_state))
      = trace s0 ++ [c]
    ∧ trace (final (flow_fn (@hello_flow no_subflow_client) initial_state))
      = trace initial_state
        ++ emitted initial_state
             (final (flow_fn (@hello_flow no_subflow_client) initial_state))
    ∧ last (emitted initial_state
              (final (flow_fn (@hello_flow no_subflow_client) initial_state)))
      = Some c
    ∧ emitted initial_state
        (final (flow_fn (@hello_flow no_subflow_client) initial_state))
      ∈ [ [greeting; Submit "yes"];
          [greeting; Submit "yes"; Wait (next_future initial_state)];
          [greeting; Submit "yes"; Wait (next_future initial_state);
           Stdout ("Task result: yes" +:+ newline); RunFlow "no-flow"] ].
Proof.
  apply (hello_flow_stops_at_fault no_subflow_client initial_state).
  vm_compute. reflexivity.
Defined.

(** ** Invocations one after the other *)

(** X3. Two invocations of [hello_flow] one after the other, with a client
    that does not raise: both return, the second submits the task anew and
    waits on its own, next future, the first run's future stays settled with
    "yes", and no future that existed before is touched. *)
Theorem hello_flow_twice (client : PrefectClient) (s : state) :
  client_reliable client →
  let id := next_future s in
  ∃ s1 s2,
    flow_fn hello_flow s = Ok VNone s1
    ∧ flow_fn hello_flow s1 = Ok VNone s2
    ∧ trace s2 = trace s ++ hello_flow_events id ++ hello_flow_events (S id)
    ∧ futures s2 !! id = Some (inl (VStr "yes"))
    ∧ futures s2 !! S id = Some (inl (VStr "yes"))
    ∧ next_future s2 = S (S id)
    ∧ ∀ j, j ≠ id → j ≠ S id → futures s2 !! j = futures s !! j.
Proof.
  intros Hrel id. subst id.
  destruct (hello_flow_completes s Hrel) as (s1 & E1 & _).
  destruct (hello_flow_completes s1 Hrel) as (s2 & E2 & _).
  pose proof (hello_flow_cases s) as H1. cbn zeta in H1. rewrite E1 in H1.
  pose proof (hello_flow_cases s1) as H2. cbn zeta in H2. rewrite E2 in H2.
  destruct H1 as (_ & Ht1 & Hf1 & Hn1), H2 as (_ & Ht2 & Hf2 & Hn2).
  exists s1, s2. rewrite Hn1 in *. split_and!; [done..| | | |done|].
  - by rewrite Ht2, Ht1, <- app_assoc.
  - rewrite Hf2, Hf1, lookup_insert_ne by lia. apply lookup_insert_eq.
  - rewrite Hf2. apply lookup_insert_eq.
  - intros j Hj1 Hj2. by rewrite Hf2, Hf1, !lookup_insert_ne.
Qed.

Lemma hello_flow_twice_witness :
  ∃ s1 s2,
    flow_fn (@hello_flow local_client) initial_state = Ok VNone s1
    ∧ flow_fn (@hello_flow local_client) s1 = Ok VNone s2
    ∧ trace s2 = trace initial_state ++ hello_flow_events 0 ++ hello_flow_events 1
    ∧ futures s2 !! 0 = Some (inl (VStr "yes"))
    ∧ futures s2 !! 1 = Some (inl (VStr "yes"))
    ∧ next_future s2 = 2
    ∧ ∀ j, j ≠ 0 → j ≠ 1 → futures s2 !! j = futures initial_state !! j.
Proof.
  apply (hello_flow_twice local_client initial_state).
  intros e s. reflexivity.
Defined.

(** ** Loading the module *)

Section Loading.
Context {client : PrefectClient}.

(** Loading the module in full: what it returns or raises and the state it
    leaves, by the name it runs under and the client's answer to the
    deployment call. *)
Lemma run_module_cases name s :
  let call := Deploy "yasir-flow" "hello_flow" deploy_kwargs in
  let g := [ ("flow", Imported "prefect" "flow"); ("task", Imported "prefect" "task");
             ("no", FlowDef no); ("yes", TaskDef yes);
             ("hello_flow", FlowDef hello_flow) ] in
  (name ≠ "__main__" ∧ run_module name s = Ok g s)
  ∨ (name = "__main__" ∧ client_fault call s = None
     ∧ run_module name s = Ok g (emit call s))
  ∨ (name = "__main__"
     ∧ ∃ msg, client_fault call s = Some msg
              ∧ run_module name s = Raise (PlatformError msg) (emit call s)).
Proof.
  intros call g. subst call g. unfold run_module.
  destruct (decide (name = "__main__")) as [->|Hne]; [|by left].
  right. cbv [mbind M_bind deploy client_call]. cbn [flow_name flow_def hello_flow].
  destruct (client_fault _ s) as [msg|] eqn:F; [right|left]; eauto.
Qed.

End Loading.

(** X4. Loading the module, as the entry script or not, never runs the flow:
    nothing is printed, no task is submitted, no result awaited, no subflow
    called and no future allocated; the only call it can make is the
    deployment call.  It raises only as the entry script, and then with the
    error the client gave for the deployment call, uncaught; whenever it
    returns, its namespace binds [flow], [task], [no], [yes] and
    [hello_flow]. *)
Theorem run_module_never_runs_flow (client : PrefectClient) (name : string) (s : state) :
  let o := run_module name s in
  let call := Deploy "yasir-flow" "hello_flow" deploy_kwargs in
  trace (final o) = trace s ++ emitted s (final o)
  ∧ stdout_of (emitted s (final o)) = ""
  ∧ Forall (λ e, e = call) (emitted s (final o))
  ∧ futures (final o) = futures s
  ∧ next_future (final o) = next_future s
  ∧ match o with
    | Ok g _ => g.*1 = ["flow"; "task"; "no"; "yes"; "hello_flow"]
    | Raise e _ =>
        name = "__main__"
        ∧ ∃ msg, client_fault call s = Some msg ∧ e = PlatformError msg
    end.
Proof.
  intros o call. subst o call.
  destruct (run_module_cases name s) as [[_ ->]|[(_ & _ & ->)|(Hn & msg & Hf & ->)]];
    cbn [final].
  - assert (emitted s s = []) as -> by (apply emitted_app; by rewrite app_nil_r).
    rewrite app_nil_r. split_and!; done.
  - rewrite (emitted_app _ (emit _ s) _ eq_refl).
    split_and!; try done. by apply Forall_singleton.
  - rewrite (emitted_app _ (emit _ s) _ eq_refl).
    split_and!; try done; [by apply Forall_singleton | eauto].
Qed.
